(** * Registration, e-mail verification and rate-limited contact creation

    A shallow embedding of [main.py]: the three process-wide dictionaries
    ([users], [request_counts], [last_contact_time]), the [rate_limit]
    decorator, the cooldown check [can_create_contact] and the three route
    handlers [register_user], [verify_email] and [create_contact].

    Conventions.
    - A [datetime] is the number of microseconds since the epoch and a
      [timedelta] a number of microseconds: Python keeps both at microsecond
      resolution, subtracts and compares them exactly.
    - Python mutates its dictionaries in place and an exception does not
      undo earlier writes.  A handler is therefore a function from the
      world before the call to an outcome (value or raised exception)
      paired with the world after it.
    - What the program obtains from outside ([datetime.now()], [uuid4()],
      [email.utils.parseaddr], [cloudinary.uploader.upload]) is read from an
      environment of oracles; the world counts how many clock readings and
      tokens have been drawn so far. *)

From Stdlib Require Import QArith_base Ascii String.
From stdpp Require Import gmap strings list.

Local Open Scope string_scope.
Local Open Scope Z_scope.

(** ** Time *)

(** Both are plain integers; the two names only say which is meant. *)
Abbreviation datetime := Z (only parsing).
Abbreviation timedelta := Z (only parsing).

(** [timedelta(minutes=m)] *)
Definition timedelta_minutes (m : Z) : timedelta := m * 60 * 1000000.

(** [td.total_seconds()]: the number of seconds, fractions included.  Python
    returns the double nearest to this rational. *)
Definition total_seconds (td : timedelta) : Q := Qmake td 1000000.

(** ** Data *)

(** One value of the [users] dictionary:
    [{"verified": ..., "verification_token": ...}]. *)
Record user_record := mk_user {
  verified : bool;
  verification_token : string
}.

(** The [detail] of an [HTTPException]. *)
Inductive detail :=
| Text (s : string)
    (** a string literal *)
| TryAgainIn (seconds : Q).
    (** f"Too Many Requests. Try again in {seconds} seconds." *)

Inductive exn :=
| HTTPException (status_code : Z) (d : detail)
| UploadError
    (** whatever [cloudinary.uploader.upload] raises *)
| KeyError (key : string).

Inductive result (A : Type) :=
| Return (a : A)
| Raise (e : exn).
Arguments Return {A} a.
Arguments Raise {A} e.

(** A JSON object returned by a handler, or by the media store. *)
Definition json := list (string * string).

Inductive upload_outcome :=
| UploadRaises
| UploadResult (d : gmap string string).

(** [request.client.host] is all the program reads of a request. *)
Record Request := { client_host : string }.

(** Both models have the single field [email]; the one of
    [UserRegistration] is called [reg_email] here to keep the two apart. *)
Record UserRegistration := { reg_email : string }.
Record ContactCreate := { email : string }.

(** [avatar.file], the payload that is uploaded. *)
Record UploadFile := { file : string }.

(** ** The world *)

Record World := mk_world {
  users : gmap string user_record;
  request_counts : gmap string datetime;
  last_contact_time : gmap string datetime;
  clock_reads : nat;
    (** calls of [datetime.now()] made so far *)
  tokens_drawn : nat;
    (** calls of [uuid4()] made so far *)
  background_tasks : list (string * string);
    (** [send_verification_email] tasks handed to [add_task] *)
  uploads : list string
    (** payloads handed to [cloudinary.uploader.upload] *)
}.

Definition initial_world : World :=
  mk_world ∅ ∅ ∅ 0 0 [] [].

Record Env := {
  clock : nat -> datetime;
    (** the value of the n-th [datetime.now()] *)
  uuid4 : nat -> string;
    (** [str(uuid4())] of the n-th call *)
  parseaddr : string -> string * string;
    (** [email.utils.parseaddr] *)
  upload : nat -> string -> upload_outcome
    (** what the n-th call of [cloudinary.uploader.upload] does *)
}.

Definition set_users (f : gmap string user_record -> gmap string user_record)
    (w : World) : World :=
  mk_world (f (users w)) (request_counts w) (last_contact_time w)
           (clock_reads w) (tokens_drawn w) (background_tasks w) (uploads w).

Definition set_request_counts (f : gmap string datetime -> gmap string datetime)
    (w : World) : World :=
  mk_world (users w) (f (request_counts w)) (last_contact_time w)
           (clock_reads w) (tokens_drawn w) (background_tasks w) (uploads w).

Definition set_last_contact_time
    (f : gmap string datetime -> gmap string datetime) (w : World) : World :=
  mk_world (users w) (request_counts w) (f (last_contact_time w))
           (clock_reads w) (tokens_drawn w) (background_tasks w) (uploads w).

Definition tick (w : World) : World :=
  mk_world (users w) (request_counts w) (last_contact_time w)
           (S (clock_reads w)) (tokens_drawn w) (background_tasks w) (uploads w).

Definition draw_token (w : World) : World :=
  mk_world (users w) (request_counts w) (last_contact_time w)
           (clock_reads w) (S (tokens_drawn w)) (background_tasks w) (uploads w).

Definition add_task (task : string * string) (w : World) : World :=
  mk_world (users w) (request_counts w) (last_contact_time w)
           (clock_reads w) (tokens_drawn w) (background_tasks w ++ [task])
           (uploads w).

Definition log_upload (payload : string) (w : World) : World :=
  mk_world (users w) (request_counts w) (last_contact_time w)
           (clock_reads w) (tokens_drawn w) (background_tasks w)
           (uploads w ++ [payload]).

(** ** Handlers as state transformers that may raise *)

Definition M (A : Type) : Type := World -> result A * World.

Definition ret {A} (a : A) : M A := fun w => (Return a, w).

Definition raise {A} (e : exn) : M A := fun w => (Raise e, w).

Definition bind {A B} (m : M A) (k : A -> M B) : M B :=
  fun w =>
    match m w with
    | (Return a, w') => k a w'
    | (Raise e, w') => (Raise e, w')
    end.

Definition gets {A} (f : World -> A) : M A := fun w => (Return (f w), w).

Definition modify (f : World -> World) : M unit := fun w => (Return tt, f w).

Declare Scope handler_scope.
Delimit Scope handler_scope with handler.
Notation "x <- c1 ;; c2" := (bind c1 (fun x => c2))
  (at level 100, c1 at next level, right associativity) : handler_scope.
Notation "c1 ;; c2" := (bind c1 (fun _ => c2))
  (at level 100, right associativity) : handler_scope.
Local Open Scope handler_scope.

(** ['@' in s] *)
Fixpoint contains_at (s : string) : bool :=
  match s with
  | EmptyString => false
  | String c s' => if Ascii.eqb c "@"%char then true else contains_at s'
  end.

Section Handlers.

Variable env : Env.

(** [datetime.now()] *)
Definition datetime_now : M datetime :=
  fun w => (Return (clock env (clock_reads w)), tick w).

(** [str(uuid4())] *)
Definition new_token : M string :=
  fun w => (Return (uuid4 env (tokens_drawn w)), draw_token w).

(** [cloudinary.uploader.upload(payload)] *)
Definition cloudinary_upload (payload : string) : M (gmap string string) :=
  fun w =>
    match upload env (length (uploads w)) payload with
    | UploadRaises => (Raise UploadError, log_upload payload w)
    | UploadResult d => (Return d, log_upload payload w)
    end.

(** [d[key]] on a dictionary of strings *)
Definition getitem (d : gmap string string) (key : string) : M string :=
  match d !! key with
  | Some v => ret v
  | None => raise (KeyError key)
  end.

Definition can_create_contact (user_id : string) (per : timedelta) : M bool :=
  seen <- gets last_contact_time ;;
  match seen !! user_id with
  | Some last_contact =>
      now <- datetime_now ;;
      let time_elapsed := now - last_contact in
      if time_elapsed <? per then ret false else ret true
  | None => ret true
  end.

(** [rate_limit(limit, per)(func)], that is [wrapper]. *)
Definition rate_limit {Args R : Type} (limit : Z) (per : timedelta)
    (func : Request -> Args -> M R) : Request -> Args -> M R :=
  fun request args =>
    let user_id := client_host request in
    counts <- gets request_counts ;;
    match counts !! user_id with
    | Some last_request_time =>
        now <- datetime_now ;;
        let time_elapsed := now - last_request_time in
        if time_elapsed <? per then
          let time_to_wait := per - time_elapsed in
          raise (HTTPException 429 (TryAgainIn (total_seconds time_to_wait)))
        else ret tt
    | None => ret tt
    end ;;
    now <- datetime_now ;;
    modify (set_request_counts (insert user_id now)) ;;
    func request args.

Definition register_user (user_data : UserRegistration) : M json :=
  let '(_, email_address) := parseaddr env (reg_email user_data) in
  if String.eqb email_address "" || negb (contains_at (reg_email user_data))
  then raise (HTTPException 400 (Text "Invalid email address"))
  else
    verification_token <- new_token ;;
    modify (set_users (insert (reg_email user_data)
                              (mk_user false verification_token))) ;;
    modify (add_task (reg_email user_data, verification_token)) ;;
    ret [("message", "User registered successfully. Verification email sent.")].

Definition verify_email (email token : string) : M json :=
  registry <- gets users ;;
  match registry !! email with
  | None => raise (HTTPException 400 (Text "Invalid email or token"))
  | Some u =>
      if negb (String.eqb (verification_token u) token)
      then raise (HTTPException 400 (Text "Invalid email or token"))
      else
        modify (set_users (insert email (mk_user true (verification_token u)))) ;;
        ret [("message", "Email verified successfully")]
  end.

Definition create_contact (request : Request)
    (args : ContactCreate * UploadFile) : M json :=
  let '(contact_data, avatar) := args in
  let user_email := email contact_data in
  registry <- gets users ;;
  match registry !! user_email with
  | None =>
      raise (HTTPException 401 (Text "User not registered or not verified"))
  | Some u =>
      if negb (verified u)
      then raise (HTTPException 401 (Text "User not registered or not verified"))
      else ret tt
  end ;;
  allowed <- can_create_contact user_email (timedelta_minutes 1) ;;
  if negb allowed
  then raise (HTTPException 429 (Text "Too Many Requests. Try again later."))
  else
    now <- datetime_now ;;
    modify (set_last_contact_time (insert user_email now)) ;;
    upload_result <- cloudinary_upload (file avatar) ;;
    avatar_url <- getitem upload_result "secure_url" ;;
    ret [("message", "Contact created successfully"); ("avatar_url", avatar_url)].

(** [@rate_limit(limit=5, per=timedelta(minutes=1))] on [create_contact]:
    what the route [POST /create_contact/] runs. *)
Definition create_contact_route : Request -> ContactCreate * UploadFile -> M json :=
  rate_limit 5 (timedelta_minutes 1) create_contact.

End Handlers.

(** ** Observations and operations *)

(** The verification flag of an identity, [false] when it is unknown.  The
    identity guard of [create_contact] rejects exactly when this is
    [false]. *)
Definition is_verified (w : World) (identity : string) : bool :=
  match users w !! identity with
  | Some u => verified u
  | None => false
  end.

(** The three routes of the application. *)
Inductive operation :=
| Register (user_data : UserRegistration)
| Verify (email token : string)
| CreateContact (request : Request) (contact_data : ContactCreate)
    (avatar : UploadFile).

Definition perform (env : Env) (op : operation) : M json :=
  match op with
  | Register user_data => register_user env user_data
  | Verify email token => verify_email email token
  | CreateContact request contact_data avatar =>
      create_contact_route env request (contact_data, avatar)
  end.

Definition after (env : Env) (op : operation) (w : World) : World :=
  snd (perform env op w).

(** Serving a list of operations one after the other. *)
Fixpoint serve (env : Env) (ops : list operation) (w : World) : World :=
  match ops with
  | [] => w
  | op :: ops' => serve env ops' (after env op w)
  end.

Inductive reachable (env : Env) : World -> Prop :=
| reachable_initial : reachable env initial_world
| reachable_after op w : reachable env w -> reachable env (after env op w).

(** Did the call return normally. *)
Definition succeeds {A} (outcome : result A * World) : bool :=
  match fst outcome with
  | Return _ => true
  | Raise _ => false
  end.

(** Serving a list of calls of one handler, one after the other. *)
Fixpoint run_all {Args R} (handler : Request -> Args -> M R)
    (calls : list (Request * Args)) (w : World) : list (result R) * World :=
  match calls with
  | [] => ([], w)
  | (request, args) :: rest =>
      let '(r, w') := handler request args w in
      let '(rs, w'') := run_all handler rest w' in
      (r :: rs, w'')
  end.

(** Was the call let through by the throttle: anything but its 429 with a
    waiting time. *)
Definition succeeds_past_throttle {A} (r : result A) : bool :=
  match r with
  | Raise (HTTPException 429 (TryAgainIn _)) => false
  | _ => true
  end.

(** Does the gate of [rate_limit] let a request of [origin] through in [w]:
    no entry, or an entry at least [per] older than the next clock
    reading. *)
Definition throttle_open (env : Env) (per : timedelta) (w : World)
    (origin : string) : bool :=
  match request_counts w !! origin with
  | Some last_request_time =>
      negb (clock env (clock_reads w) - last_request_time <? per)
  | None => true
  end.

(** The clock reading that [rate_limit] stores for [origin] when the gate is
    open: the second reading of the call when an entry existed (the first was
    used to compute the elapsed time), the first otherwise. *)
Definition throttle_stamp (env : Env) (w : World) (origin : string) : datetime :=
  match request_counts w !! origin with
  | Some _ => clock env (S (clock_reads w))
  | None => clock env (clock_reads w)
  end.

(** The world in which [rate_limit] starts the wrapped handler. *)
Definition throttle_pass (env : Env) (w : World) (origin : string) : World :=
  set_request_counts (insert origin (throttle_stamp env w origin))
    (match request_counts w !! origin with
     | Some _ => tick (tick w)
     | None => tick w
     end).

(** The same three notions for the cooldown check followed by the write of
    [create_contact]. *)
Definition cooldown_open (env : Env) (per : timedelta) (w : World)
    (identity : string) : bool :=
  match last_contact_time w !! identity with
  | Some last_contact => negb (clock env (clock_reads w) - last_contact <? per)
  | None => true
  end.

Definition cooldown_stamp (env : Env) (w : World) (identity : string) : datetime :=
  match last_contact_time w !! identity with
  | Some _ => clock env (S (clock_reads w))
  | None => clock env (clock_reads w)
  end.

Definition cooldown_pass (env : Env) (w : World) (identity : string) : World :=
  set_last_contact_time (insert identity (cooldown_stamp env w identity))
    (match last_contact_time w !! identity with
     | Some _ => tick (tick w)
     | None => tick w
     end).

(** How a request to the contact route ends: turned away by the throttle,
    by the identity guard, by the cooldown, or handed to the media store. *)
Inductive route_end (env : Env) (request : Request)
    (contact_data : ContactCreate) (avatar : UploadFile) (w : World) :
    World -> Prop :=
| end_throttled :
    throttle_open env (timedelta_minutes 1) w (client_host request) = false ->
    route_end env request contact_data avatar w (tick w)
| end_unauthorized :
    throttle_open env (timedelta_minutes 1) w (client_host request) = true ->
    is_verified w (email contact_data) = false ->
    route_end env request contact_data avatar w
      (throttle_pass env w (client_host request))
| end_cooling :
    throttle_open env (timedelta_minutes 1) w (client_host request) = true ->
    is_verified w (email contact_data) = true ->
    cooldown_open env (timedelta_minutes 1)
      (throttle_pass env w (client_host request)) (email contact_data) = false ->
    route_end env request contact_data avatar w
      (tick (throttle_pass env w (client_host request)))
| end_uploaded :
    throttle_open env (timedelta_minutes 1) w (client_host request) = true ->
    is_verified w (email contact_data) = true ->
    cooldown_open env (timedelta_minutes 1)
      (throttle_pass env w (client_host request)) (email contact_data) = true ->
    route_end env request contact_data avatar w
      (log_upload (file avatar)
         (cooldown_pass env (throttle_pass env w (client_host request))
            (email contact_data))).

(** ** Properties of worlds *)

(** The clock never runs backwards.  [datetime.now()] is the wall clock, so
    this is an assumption where it is made, not a fact. *)
Definition monotone_clock (env : Env) : Prop :=
  forall i j, (i <= j)%nat -> clock env i <= clock env j.

(** [t] is one of the clock readings taken so far. *)
Definition past_reading (env : Env) (w : World) (t : datetime) : Prop :=
  exists i, (i < clock_reads w)%nat /\ t = clock env i.

Definition stamps_are_past_readings (env : Env) (w : World) : Prop :=
  (forall origin t, request_counts w !! origin = Some t -> past_reading env w t)
  /\
  (forall identity t,
     last_contact_time w !! identity = Some t -> past_reading env w t).

(** Every key of [m] is a key of [m']. *)
Definition keeps_keys {V V'} (m : gmap string V) (m' : gmap string V') : Prop :=
  forall key, is_Some (m !! key) -> is_Some (m' !! key).

(** No dictionary has lost a key between [w] and [w']. *)
Definition nothing_forgotten (w w' : World) : Prop :=
  keeps_keys (users w) (users w') /\
  keeps_keys (request_counts w) (request_counts w') /\
  keeps_keys (last_contact_time w) (last_contact_time w').

(** The registration test of [register_user] on an address. *)
Definition acceptable_email (env : Env) (address : string) : Prop :=
  snd (parseaddr env address) <> "" /\ contains_at address = true.

(** Every token drawn went into one e-mail task, and the token of every
    record is the one that was handed to a task for that very address. *)
Definition tokens_were_mailed (env : Env) (w : World) : Prop :=
  length (background_tasks w) = tokens_drawn w /\
  forall address u,
    users w !! address = Some u ->
    exists i,
      background_tasks w !! i = Some (address, verification_token u) /\
      verification_token u = uuid4 env i.

(** ** A concrete environment for the examples *)

Module Demo.

(** The clock advances by half a second from one reading to the next. *)
Definition half_seconds (n : nat) : datetime := Z.of_nat n * 500000.

Definition tokens (n : nat) : string :=
  nth n ["0b8f6d2e-5a41-4c3e-9f0a-1d2c3b4a5e6f";
         "7c1e9a34-2b6d-4f80-8a15-9e0d3c2b1a47"]
        "5d4c3b2a-1908-4716-a5b4-c3d2e1f00f1e".

(** [parseaddr] on a bare address returns an empty display name and the
    address itself; the examples use bare addresses only. *)
Definition bare_parseaddr (s : string) : string * string := ("", s).

Definition store_ok (n : nat) (payload : string) : upload_outcome :=
  UploadResult {[ "secure_url" := "https://res.cloudinary.com/demo/image/upload/avatar.png" ]}.

Definition store_down (n : nat) (payload : string) : upload_outcome :=
  UploadRaises.

Definition env : Env :=
  {| clock := half_seconds; uuid4 := tokens; parseaddr := bare_parseaddr;
     upload := store_ok |}.

Definition env_down : Env :=
  {| clock := half_seconds; uuid4 := tokens; parseaddr := bare_parseaddr;
     upload := store_down |}.

(** A clock that advances by [step] microseconds per reading. *)
Definition env_every (step : Z) : Env :=
  {| clock := fun n => Z.of_nat n * step; uuid4 := tokens;
     parseaddr := bare_parseaddr; upload := store_ok |}.

Definition alice : string := "a@example.com".
Definition alice_token : string := tokens 0.

Definition from (host : string) : Request := {| client_host := host |}.

Definition contact_of (who : string) : ContactCreate := {| email := who |}.

Definition avatar : UploadFile := {| file := "PNG" |}.

(** Alice has registered and verified. *)
Definition alice_verified : World :=
  serve env [Register {| reg_email := alice |}; Verify alice alice_token]
    initial_world.

(** Alice has registered only. *)
Definition alice_registered : World :=
  after env (Register {| reg_email := alice |}) initial_world.

(** Nobody registered zed@example.com. *)
Definition zed : ContactCreate * UploadFile :=
  (contact_of "zed@example.com", avatar).

Definition every_minute : Env := env_every 60000000.

(** The first request ever, from 10.0.0.1 for zed, has been answered. *)
Definition zed_refused (e : Env) : World :=
  snd (create_contact_route e (from "10.0.0.1") zed initial_world).

(** Alice, verified, has sent her first contact from 10.0.0.1. *)
Definition alice_created (e : Env) : World :=
  after e (CreateContact (from "10.0.0.1") (contact_of alice) avatar)
    alice_verified.



(** A media store that answers without a [secure_url]. *)
Definition store_odd (n : nat) (payload : string) : upload_outcome :=
  UploadResult {[ "error" := "unsupported image" ]}.

Definition env_odd : Env :=
  {| clock := half_seconds; uuid4 := tokens; parseaddr := bare_parseaddr;
     upload := store_odd |}.

(** Alice has registered a second time. *)
Definition alice_registered_twice : World :=
  after env (Register {| reg_email := alice |}) alice_registered.

End Demo.

(** ** How the two gates and the handlers run *)

Ltac unfold_handler :=
  unfold create_contact_route, rate_limit, create_contact, can_create_contact,
    verify_email, register_user, cloudinary_upload, getitem, new_token,
    datetime_now, bind, gets, modify, ret, raise;
  cbn beta iota.

Section Gates.

Variable env : Env.

Lemma is_verified_true w identity :
  is_verified w identity = true <->
  exists token, users w !! identity = Some (mk_user true token).
Proof.
  unfold is_verified. split.
  - destruct (users w !! identity) as [[v token]|] eqn:E; cbn; intros H;
      [subst v; eauto | discriminate].
  - intros [token ->]. reflexivity.
Qed.

(** An open throttle gate stamps the origin and hands over to the wrapped
    handler, whatever [limit] is. *)
Lemma rate_limit_open {Args R} limit per (func : Request -> Args -> M R)
    request args w :
  throttle_open env per w (client_host request) = true ->
  rate_limit env limit per func request args w =
  func request args (throttle_pass env w (client_host request)).
Proof.
  unfold throttle_open, throttle_pass, throttle_stamp. unfold_handler.
  cbn. destruct (request_counts w !! client_host request) as [t|]; cbn.
  - intros H. apply negb_true_iff in H. rewrite H. reflexivity.
  - reflexivity.
Qed.

(** A closed throttle gate raises 429 with the remaining wait; only the clock
    has been read. *)
Lemma rate_limit_closed {Args R} limit per (func : Request -> Args -> M R)
    request args w :
  throttle_open env per w (client_host request) = false ->
  exists last_request_time,
    request_counts w !! client_host request = Some last_request_time /\
    rate_limit env limit per func request args w =
    (Raise (HTTPException 429 (TryAgainIn (total_seconds
       (per - (clock env (clock_reads w) - last_request_time))))),
     tick w).
Proof.
  unfold throttle_open. unfold_handler. cbn.
  destruct (request_counts w !! client_host request) as [t|]; cbn;
    [|discriminate].
  intros H. apply negb_false_iff in H. rewrite H. eauto.
Qed.

Lemma can_create_contact_open user_id per w :
  cooldown_open env per w user_id = true ->
  can_create_contact env user_id per w =
  (Return true,
   match last_contact_time w !! user_id with
   | Some _ => tick w
   | None => w
   end).
Proof.
  unfold cooldown_open. unfold_handler. cbn.
  destruct (last_contact_time w !! user_id) as [t|]; cbn; [|reflexivity].
  intros H. apply negb_true_iff in H. rewrite H. reflexivity.
Qed.

Lemma can_create_contact_closed user_id per w :
  cooldown_open env per w user_id = false ->
  can_create_contact env user_id per w = (Return false, tick w).
Proof.
  unfold cooldown_open. unfold_handler. cbn.
  destruct (last_contact_time w !! user_id) as [t|]; cbn; [|discriminate].
  intros H. apply negb_false_iff in H. rewrite H. reflexivity.
Qed.

(** The three ways through [create_contact]. *)
Lemma create_contact_unverified request contact_data avatar w :
  is_verified w (email contact_data) = false ->
  create_contact env request (contact_data, avatar) w =
  (Raise (HTTPException 401 (Text "User not registered or not verified")), w).
Proof.
  unfold is_verified. unfold_handler. cbn.
  destruct (users w !! email contact_data) as [[v token]|]; cbn;
    [intros ->|]; reflexivity.
Qed.

Lemma create_contact_cooling request contact_data avatar w :
  is_verified w (email contact_data) = true ->
  cooldown_open env (timedelta_minutes 1) w (email contact_data) = false ->
  create_contact env request (contact_data, avatar) w =
  (Raise (HTTPException 429 (Text "Too Many Requests. Try again later.")),
   tick w).
Proof.
  intros Hv Hc. apply can_create_contact_closed in Hc.
  apply is_verified_true in Hv as [token Hv].
  unfold create_contact, bind at 1 2, gets at 1. cbn beta iota.
  rewrite Hv. cbn. unfold bind at 1. rewrite Hc. reflexivity.
Qed.

Lemma create_contact_uploading request contact_data avatar w :
  is_verified w (email contact_data) = true ->
  cooldown_open env (timedelta_minutes 1) w (email contact_data) = true ->
  create_contact env request (contact_data, avatar) w =
  let w' := cooldown_pass env w (email contact_data) in
  match upload env (length (uploads w')) (file avatar) with
  | UploadRaises => (Raise UploadError, log_upload (file avatar) w')
  | UploadResult d =>
      match d !! "secure_url" with
      | Some avatar_url =>
          (Return [("message", "Contact created successfully");
                   ("avatar_url", avatar_url)],
           log_upload (file avatar) w')
      | None => (Raise (KeyError "secure_url"), log_upload (file avatar) w')
      end
  end.
Proof.
  intros Hv Hc. apply can_create_contact_open in Hc.
  apply is_verified_true in Hv as [token Hv].
  unfold create_contact, bind at 1 2, gets at 1. cbn beta iota.
  rewrite Hv. cbn. unfold bind at 1. rewrite Hc.
  unfold cooldown_pass, cooldown_stamp. unfold_handler. cbn.
  destruct (last_contact_time w !! email contact_data) as [t|]; cbn;
    destruct (upload env _ _) as [|d]; cbn; try reflexivity;
    destruct (d !! "secure_url"); reflexivity.
Qed.

End Gates.

(** ** What each handler leaves alone *)

Section Frames.

Variable env : Env.

Lemma create_contact_frame request args w :
  let w' := snd (create_contact env request args w) in
  users w' = users w /\ request_counts w' = request_counts w.
Proof.
  destruct args as [contact_data avatar]. unfold_handler. cbn.
  destruct (users w !! email contact_data) as [[[] token]|]; cbn; auto.
  destruct (last_contact_time w !! email contact_data) as [t|]; cbn;
    [destruct (_ <? _); cbn; auto|];
    (destruct (upload env _ _) as [|d]; cbn; auto;
     destruct (d !! "secure_url"); cbn; auto).
Qed.

Lemma rate_limit_users {Args R} limit per (func : Request -> Args -> M R)
    request args w :
  (forall w0, users (snd (func request args w0)) = users w0) ->
  users (snd (rate_limit env limit per func request args w)) = users w.
Proof.
  intros Hfunc.
  destruct (throttle_open env per w (client_host request)) eqn:Hopen.
  - rewrite (rate_limit_open env limit per func request args w Hopen), Hfunc.
    unfold throttle_pass.
    destruct (request_counts w !! client_host request); reflexivity.
  - destruct (rate_limit_closed env limit per func request args w Hopen)
      as (t & _ & ->). reflexivity.
Qed.

Lemma create_contact_route_users request args w :
  users (snd (create_contact_route env request args w)) = users w.
Proof.
  apply rate_limit_users. intros w0. apply create_contact_frame.
Qed.

Lemma verify_email_cases email token w :
  (exists u, users w !! email = Some u /\ verification_token u = token /\
     verify_email email token w =
     (Return [("message", "Email verified successfully")],
      set_users (insert email (mk_user true token)) w)) \/
  (~ (exists u, users w !! email = Some u /\ verification_token u = token) /\
     verify_email email token w =
     (Raise (HTTPException 400 (Text "Invalid email or token")), w)).
Proof.
  unfold_handler. cbn.
  destruct (users w !! email) as [u|] eqn:E; cbn.
  - destruct (String.eqb_spec (verification_token u) token) as [Heq|Hne]; cbn.
    + left. exists u. rewrite Heq. auto.
    + right. split; [|reflexivity]. intros (u' & Hu' & Htok). congruence.
  - right. split; [|reflexivity]. intros (u' & Hu' & _). discriminate.
Qed.

Lemma register_user_cases user_data w :
  register_user env user_data w =
  (Raise (HTTPException 400 (Text "Invalid email address")), w) \/
  register_user env user_data w =
  (Return [("message", "User registered successfully. Verification email sent.")],
   add_task (reg_email user_data, uuid4 env (tokens_drawn w))
     (set_users (insert (reg_email user_data)
                   (mk_user false (uuid4 env (tokens_drawn w))))
        (draw_token w))).
Proof.
  unfold_handler.
  destruct (parseaddr env (reg_email user_data)) as [name email_address].
  destruct (_ || _); [left | right]; reflexivity.
Qed.

End Frames.

(** ** The verification state machine *)

(** C1, as the code has it: from a state in which identity I is verified,
    [verify_email] and [create_contact] always leave I verified, and so does
    [register_user] for another identity or when it rejects the address;
    an accepted [register_user] for I itself stores a fresh unverified
    record, after which I is no longer verified. *)
Theorem verified_until_registered_again env w identity op :
  is_verified w identity = true ->
  is_verified (after env op w) identity =
  match op with
  | Register user_data =>
      negb (String.eqb (reg_email user_data) identity
            && succeeds (register_user env user_data w))
  | Verify _ _ => true
  | CreateContact _ _ _ => true
  end.
Proof.
  intros Hv. unfold after. destruct op as [user_data|email token|request cd av];
    cbn [perform].
  - unfold succeeds.
    destruct (register_user_cases env user_data w) as [-> | ->]; cbn [fst snd].
    + rewrite andb_false_r. exact Hv.
    + rewrite andb_true_r. unfold is_verified, add_task, set_users. cbn.
      destruct (String.eqb_spec (reg_email user_data) identity) as [->|Hne].
      * rewrite lookup_insert_eq. reflexivity.
      * rewrite lookup_insert_ne by exact Hne. exact Hv.
  - destruct (verify_email_cases email token w)
      as [(u & Hu & Htok & ->) | (_ & ->)]; cbn [snd]; [|exact Hv].
    unfold is_verified, set_users. cbn.
    destruct (decide (email = identity)) as [->|Hne].
    + rewrite lookup_insert_eq. reflexivity.
    + rewrite lookup_insert_ne by exact Hne. exact Hv.
  - unfold is_verified. rewrite create_contact_route_users. exact Hv.
Qed.

Lemma verified_until_registered_again_witness :
  is_verified Demo.alice_verified Demo.alice = true /\
  is_verified (after Demo.env (Verify Demo.alice "x") Demo.alice_verified)
    Demo.alice = true.
Proof.
  split; [reflexivity|].
  apply (verified_until_registered_again Demo.env Demo.alice_verified
           Demo.alice (Verify Demo.alice "x")).
  reflexivity.
Defined.

(** C1 as stated fails: Alice registers, verifies and registers again; the
    state before the second registration is reachable and has her verified,
    the state after it does not. *)
Lemma reregistration_unverifies :
  reachable Demo.env Demo.alice_verified /\
  is_verified Demo.alice_verified Demo.alice = true /\
  is_verified
    (after Demo.env (Register {| reg_email := Demo.alice |}) Demo.alice_verified)
    Demo.alice = false.
Proof.
  split; [|split; reflexivity].
  unfold Demo.alice_verified. cbn [serve].
  do 2 apply reachable_after. apply reachable_initial.
Qed.

(** ** The request throttle *)

Lemma throttle_pass_entry env w origin :
  request_counts (throttle_pass env w origin) !! origin =
  Some (throttle_stamp env w origin).
Proof. unfold throttle_pass. cbn. apply lookup_insert_eq. Qed.

Lemma throttle_open_iff env per w origin last_request_time :
  request_counts w !! origin = Some last_request_time ->
  throttle_open env per w origin = true <->
  per <= clock env (clock_reads w) - last_request_time.
Proof.
  intros E. unfold throttle_open. rewrite E, negb_true_iff, Z.ltb_ge.
  reflexivity.
Qed.

(** C2: two acquisitions of the throttle for one origin, the first of which
    passes the gate and stores the clock reading t1.  With t2 the clock
    reading the second one takes: when t2 - t1 < per the second raises 429
    carrying (per - (t2 - t1)) in seconds, fractions kept, and does nothing
    but read the clock; when per <= t2 - t1 it stores a new reading and runs
    the handler. *)
Theorem throttle_second_acquisition env limit per request1 args1 request2 args2 w :
  client_host request2 = client_host request1 ->
  throttle_open env per w (client_host request1) = true ->
  let throttled := rate_limit env limit per (create_contact env) in
  let w1 := snd (throttled request1 args1 w) in
  let t1 := throttle_stamp env w (client_host request1) in
  let elapsed := clock env (clock_reads w1) - t1 in
  request_counts w1 !! client_host request1 = Some t1 /\
  (elapsed < per ->
   throttled request2 args2 w1 =
   (Raise (HTTPException 429 (TryAgainIn (total_seconds (per - elapsed)))),
    tick w1)) /\
  (per <= elapsed ->
   throttled request2 args2 w1 =
   create_contact env request2 args2
     (set_request_counts
        (insert (client_host request1) (clock env (S (clock_reads w1))))
        (tick (tick w1)))).
Proof.
  intros Hhost Hopen throttled w1 t1 elapsed.
  assert (Hentry : request_counts w1 !! client_host request1 = Some t1).
  { subst w1 throttled. rewrite (rate_limit_open _ _ _ _ _ _ _ Hopen).
    destruct (create_contact_frame env request1 args1
                (throttle_pass env w (client_host request1))) as [_ ->].
    apply throttle_pass_entry. }
  split; [exact Hentry|]. split; intros Hcmp.
  - assert (Hclosed : throttle_open env per w1 (client_host request2) = false).
    { unfold throttle_open. rewrite Hhost, Hentry, negb_false_iff.
      apply Z.ltb_lt. exact Hcmp. }
    destruct (rate_limit_closed env limit per (create_contact env)
                request2 args2 w1 Hclosed) as (t & Ht & Hrun).
    rewrite Hhost, Hentry in Ht. injection Ht as <-. exact Hrun.
  - assert (Hopen2 : throttle_open env per w1 (client_host request2) = true).
    { rewrite Hhost. apply (throttle_open_iff _ _ _ _ _ Hentry). exact Hcmp. }
    subst throttled.
    rewrite (rate_limit_open _ _ _ _ _ _ _ Hopen2).
    unfold throttle_pass, throttle_stamp. rewrite Hhost, Hentry. reflexivity.
Qed.

(** Readings half a second apart: a second request half a second after the
    first is told to wait 59.5 seconds; with readings a minute apart it is
    served. *)
Lemma throttle_second_acquisition_witness :
  fst (create_contact_route Demo.env (Demo.from "10.0.0.1") Demo.zed
         (Demo.zed_refused Demo.env)) =
  Raise (HTTPException 429 (TryAgainIn (Qmake 59500000 1000000))) /\
  fst (create_contact_route Demo.every_minute (Demo.from "10.0.0.1") Demo.zed
         (Demo.zed_refused Demo.every_minute)) =
  Raise (HTTPException 401 (Text "User not registered or not verified")).
Proof.
  split.
  - destruct (throttle_second_acquisition Demo.env 5 (timedelta_minutes 1)
                (Demo.from "10.0.0.1") Demo.zed (Demo.from "10.0.0.1") Demo.zed
                initial_world eq_refl eq_refl) as (_ & Hshort & _).
    unfold Demo.zed_refused, create_contact_route.
    rewrite Hshort; [reflexivity|]. vm_compute. reflexivity.
  - destruct (throttle_second_acquisition Demo.every_minute 5
                (timedelta_minutes 1) (Demo.from "10.0.0.1") Demo.zed
                (Demo.from "10.0.0.1") Demo.zed initial_world eq_refl eq_refl)
      as (_ & _ & Hlong).
    unfold Demo.zed_refused, create_contact_route.
    rewrite Hlong; [reflexivity|]. vm_compute. discriminate.
Defined.

(** ** The cooldown of contact creation *)

(** A contact creation that returns normally was made for a verified
    identity and leaves the last clock reading of the call as the cooldown
    entry of that identity. *)
Lemma create_contact_route_success env request contact_data avatar w r w1 :
  create_contact_route env request (contact_data, avatar) w = (Return r, w1) ->
  is_verified w1 (email contact_data) = true /\
  last_contact_time w1 !! email contact_data =
  Some (clock env (Nat.pred (clock_reads w1))).
Proof.
  intros Hrun. unfold create_contact_route in Hrun.
  destruct (throttle_open env (timedelta_minutes 1) w (client_host request))
    eqn:Hopen.
  2:{ destruct (rate_limit_closed env 5 (timedelta_minutes 1)
                  (create_contact env) request (contact_data, avatar) w Hopen)
        as (t & _ & Hclosed). congruence. }
  rewrite (rate_limit_open _ _ _ _ _ _ _ Hopen) in Hrun.
  generalize dependent (throttle_pass env w (client_host request)).
  intros w0 Hrun.
  destruct (is_verified w0 (email contact_data)) eqn:Hv.
  2:{ rewrite (create_contact_unverified _ _ _ _ _ Hv) in Hrun. discriminate. }
  destruct (cooldown_open env (timedelta_minutes 1) w0 (email contact_data))
    eqn:Hc.
  2:{ rewrite (create_contact_cooling _ _ _ _ _ Hv Hc) in Hrun. discriminate. }
  rewrite (create_contact_uploading _ _ _ _ _ Hv Hc) in Hrun. cbn zeta in Hrun.
  assert (Hw1 : w1 = log_upload (file avatar)
                       (cooldown_pass env w0 (email contact_data))).
  { destruct (upload env _ _) as [|d]; [discriminate|].
    destruct (d !! "secure_url"); [|discriminate]. congruence. }
  subst w1. split.
  - unfold is_verified in *.
    replace (users (log_upload (file avatar)
                      (cooldown_pass env w0 (email contact_data))))
      with (users w0); [exact Hv|].
    unfold cooldown_pass.
    destruct (last_contact_time w0 !! email contact_data); reflexivity.
  - unfold cooldown_pass, cooldown_stamp. cbn.
    rewrite lookup_insert_eq.
    destruct (last_contact_time w0 !! email contact_data); reflexivity.
Qed.

(** C3: a contact creation for identity I has returned normally, leaving
    world w1; t1 is the time it recorded.  A second creation for I passes
    the throttle in w1 and takes its cooldown reading less than one minute
    (the period [create_contact] passes to [can_create_contact]) after t1.
    Then it raises 429 with the fixed text, which carries no waiting time; no
    upload is made and the cooldown entry stays t1. *)
Theorem cooldown_rejects_second_contact
    env request1 contact_data avatar1 request2 avatar2 w r1 w1 :
  create_contact_route env request1 (contact_data, avatar1) w = (Return r1, w1) ->
  throttle_open env (timedelta_minutes 1) w1 (client_host request2) = true ->
  let identity := email contact_data in
  let t1 := clock env (Nat.pred (clock_reads w1)) in
  let w2 := throttle_pass env w1 (client_host request2) in
  clock env (clock_reads w2) - t1 < timedelta_minutes 1 ->
  last_contact_time w1 !! identity = Some t1 /\
  create_contact_route env request2 (contact_data, avatar2) w1 =
  (Raise (HTTPException 429 (Text "Too Many Requests. Try again later.")),
   tick w2) /\
  uploads (tick w2) = uploads w1 /\
  last_contact_time (tick w2) = last_contact_time w1.
Proof.
  intros Hfirst Hopen identity t1 w2 Hwithin.
  destruct (create_contact_route_success _ _ _ _ _ _ _ Hfirst) as [Hv Hentry].
  fold identity t1 in Hentry. split; [exact Hentry|].
  assert (Hframe : uploads w2 = uploads w1 /\
                   last_contact_time w2 = last_contact_time w1 /\
                   users w2 = users w1).
  { subst w2. unfold throttle_pass.
    destruct (request_counts w1 !! client_host request2); cbn; auto. }
  destruct Hframe as (Hup & Hlast & Husers).
  split; [|split; [exact Hup | exact Hlast]].
  unfold create_contact_route. rewrite (rate_limit_open _ _ _ _ _ _ _ Hopen).
  fold w2. apply create_contact_cooling.
  - unfold is_verified in *. rewrite Husers. exact Hv.
  - unfold cooldown_open. rewrite Hlast. fold identity. rewrite Hentry.
    apply negb_false_iff, Z.ltb_lt. exact Hwithin.
Qed.

(** Alice creates a contact from one address and, half a second later,
    tries again from another one. *)
Lemma cooldown_rejects_second_contact_witness :
  fst (create_contact_route Demo.env (Demo.from "10.0.0.2")
         (Demo.contact_of Demo.alice, Demo.avatar)
         (Demo.alice_created Demo.env)) =
  Raise (HTTPException 429 (Text "Too Many Requests. Try again later.")) /\
  uploads (after Demo.env
             (CreateContact (Demo.from "10.0.0.2") (Demo.contact_of Demo.alice)
                Demo.avatar) (Demo.alice_created Demo.env)) = ["PNG"].
Proof.
  destruct (cooldown_rejects_second_contact Demo.env
              (Demo.from "10.0.0.1") (Demo.contact_of Demo.alice) Demo.avatar
              (Demo.from "10.0.0.2") Demo.avatar Demo.alice_verified
              [("message", "Contact created successfully");
               ("avatar_url",
                "https://res.cloudinary.com/demo/image/upload/avatar.png")]
              (Demo.alice_created Demo.env) eq_refl eq_refl)
    as (_ & Hrun & Hup & _).
  - vm_compute. reflexivity.
  - unfold after at 1, perform. rewrite Hrun. cbn [fst snd].
    split; [reflexivity|]. rewrite Hup. reflexivity.
Defined.

(** ** The boundary of both gates *)

(** C4: an elapsed time equal to the period passes both gates.  The throttle
    stores a new reading and runs the handler; the cooldown check answers
    [True]. *)
Theorem boundary_is_permitted {Args R} env limit per
    (func : Request -> Args -> M R) request args identity w t :
  (request_counts w !! client_host request = Some t ->
   clock env (clock_reads w) - t = per ->
   rate_limit env limit per func request args w =
   func request args
     (set_request_counts
        (insert (client_host request) (clock env (S (clock_reads w))))
        (tick (tick w)))) /\
  (last_contact_time w !! identity = Some t ->
   clock env (clock_reads w) - t = per ->
   can_create_contact env identity per w = (Return true, tick w)).
Proof.
  split; intros Hentry Hexact.
  - rewrite rate_limit_open.
    + unfold throttle_pass, throttle_stamp. rewrite Hentry. reflexivity.
    + apply (throttle_open_iff _ _ _ _ _ Hentry). lia.
  - rewrite can_create_contact_open.
    + rewrite Hentry. reflexivity.
    + unfold cooldown_open. rewrite Hentry, Hexact, Z.ltb_irrefl. reflexivity.
Qed.

(** With clock readings exactly one minute apart, the second request of an
    origin is served (here up to the identity guard) and the cooldown check
    of an identity that created a contact one minute ago answers [True]. *)
Lemma boundary_is_permitted_witness :
  fst (rate_limit Demo.every_minute 5 (timedelta_minutes 1)
         (create_contact Demo.every_minute) (Demo.from "10.0.0.1") Demo.zed
         (Demo.zed_refused Demo.every_minute)) =
  Raise (HTTPException 401 (Text "User not registered or not verified")) /\
  can_create_contact Demo.every_minute Demo.alice (timedelta_minutes 1)
    (Demo.alice_created Demo.every_minute) =
  (Return true, tick (Demo.alice_created Demo.every_minute)).
Proof.
  destruct (boundary_is_permitted Demo.every_minute 5 (timedelta_minutes 1)
              (create_contact Demo.every_minute) (Demo.from "10.0.0.1")
              Demo.zed Demo.alice (Demo.zed_refused Demo.every_minute) 0)
    as [Hthrottle _].
  destruct (boundary_is_permitted Demo.every_minute 5 (timedelta_minutes 1)
              (create_contact Demo.every_minute) (Demo.from "10.0.0.1")
              Demo.zed Demo.alice (Demo.alice_created Demo.every_minute)
              60000000) as [_ Hcooldown].
  split.
  - rewrite Hthrottle; reflexivity.
  - apply Hcooldown; reflexivity.
Defined.

(** ** Verification *)

(** C5: [verify_email] returns normally exactly when [users] has a record
    for the identity whose token is the supplied string, character for
    character.  It then marks that record verified and touches no other
    record.  In every other case, unknown identity and wrong token alike, it
    raises the same 400 and leaves the whole world as it was. *)
Theorem verify_email_iff_token_matches email token w :
  let matches :=
    exists u, users w !! email = Some u /\ verification_token u = token in
  let outcome := verify_email email token w in
  (matches ->
   fst outcome = Return [("message", "Email verified successfully")] /\
   users (snd outcome) !! email = Some (mk_user true token) /\
   is_verified (snd outcome) email = true /\
   forall other, other <> email ->
     users (snd outcome) !! other = users w !! other) /\
  (~ matches ->
   outcome = (Raise (HTTPException 400 (Text "Invalid email or token")), w)) /\
  (succeeds outcome = true <-> matches).
Proof.
  intros matches outcome. subst outcome.
  destruct (verify_email_cases email token w)
    as [(u & Hu & Htok & ->) | (Hno & ->)].
  - assert (Hm : matches) by (exists u; auto).
    split; [|split]; [| tauto | unfold succeeds; cbn; tauto].
    intros _. cbn. unfold is_verified. cbn. rewrite lookup_insert_eq.
    repeat split. intros other Hne. apply lookup_insert_ne. congruence.
  - split; [|split]; [tauto | auto |].
    unfold succeeds. cbn. split; [discriminate | tauto].
Qed.

(** The comparison of tokens is case-sensitive. *)
Example verify_email_case_sensitive :
  fst (verify_email "a@example.com" "ABC"
         (set_users (insert "a@example.com" (mk_user false "abc"))
            initial_world)) =
  Raise (HTTPException 400 (Text "Invalid email or token")).
Proof. reflexivity. Qed.

(** C8: an identity registered with token T and not verified yet.  The
    first [verify_email] with T returns normally and the identity is verified
    from then on; a second one returns normally as well and changes
    nothing. *)
Theorem verify_email_twice identity token w :
  users w !! identity = Some (mk_user false token) ->
  let accepted : result json * World :=
    (Return [("message", "Email verified successfully")],
     set_users (insert identity (mk_user true token)) w) in
  is_verified w identity = false /\
  verify_email identity token w = accepted /\
  is_verified (snd accepted) identity = true /\
  verify_email identity token (snd accepted) = accepted.
Proof.
  intros Hreg accepted.
  assert (Hrun : forall w0 v,
             users w0 !! identity = Some (mk_user v token) ->
             verify_email identity token w0 =
             (Return [("message", "Email verified successfully")],
              set_users (insert identity (mk_user true token)) w0)).
  { intros w0 v H0. unfold_handler. cbn. rewrite H0. cbn.
    rewrite String.eqb_refl. reflexivity. }
  split; [unfold is_verified; rewrite Hreg; reflexivity|].
  split; [exact (Hrun w false Hreg)|].
  assert (Hnow : users (snd accepted) !! identity = Some (mk_user true token))
    by (cbn; apply lookup_insert_eq).
  split; [unfold is_verified; rewrite Hnow; reflexivity|].
  rewrite (Hrun _ true Hnow). subst accepted. cbn [snd].
  unfold set_users. cbn. rewrite insert_insert_eq. reflexivity.
Qed.

(** An accepted registration is such a starting point, with the token that
    [uuid4] handed out. *)
Lemma register_user_registers env user_data w :
  succeeds (register_user env user_data w) = true ->
  users (snd (register_user env user_data w)) !! reg_email user_data =
  Some (mk_user false (uuid4 env (tokens_drawn w))).
Proof.
  unfold succeeds.
  destruct (register_user_cases env user_data w) as [-> | ->]; cbn;
    [discriminate|].
  intros _. apply lookup_insert_eq.
Qed.

Lemma verify_email_twice_witness :
  is_verified Demo.alice_registered Demo.alice = false /\
  is_verified
    (after Demo.env (Verify Demo.alice Demo.alice_token) Demo.alice_registered)
    Demo.alice = true /\
  perform Demo.env (Verify Demo.alice Demo.alice_token) Demo.alice_verified =
  (Return [("message", "Email verified successfully")], Demo.alice_verified).
Proof.
  destruct (verify_email_twice Demo.alice Demo.alice_token
              Demo.alice_registered eq_refl)
    as (Hbefore & Hfirst & Hafter & Hsecond).
  split; [exact Hbefore|]. split.
  - unfold after, perform. rewrite Hfirst. exact Hafter.
  - unfold perform, Demo.alice_verified. cbn [serve].
    fold Demo.alice_registered. unfold after at 1, perform. rewrite Hfirst.
    exact Hsecond.
Defined.

Lemma verify_email_iff_token_matches_witness :
  is_verified
    (after Demo.env (Verify Demo.alice Demo.alice_token) Demo.alice_registered)
    Demo.alice = true /\
  verify_email Demo.alice "x" Demo.alice_verified =
  (Raise (HTTPException 400 (Text "Invalid email or token")),
   Demo.alice_verified) /\
  verify_email "nobody@example.com" Demo.alice_token Demo.alice_verified =
  (Raise (HTTPException 400 (Text "Invalid email or token")),
   Demo.alice_verified).
Proof.
  split; [|split].
  - destruct (verify_email_iff_token_matches Demo.alice Demo.alice_token
                Demo.alice_registered) as (Hyes & _ & _).
    apply Hyes. exists (mk_user false Demo.alice_token).
    split; reflexivity.
  - destruct (verify_email_iff_token_matches Demo.alice "x"
                Demo.alice_verified) as (_ & Hno & _).
    apply Hno. intros (u & Hu & Htok). vm_compute in Hu.
    injection Hu as <-. discriminate Htok.
  - destruct (verify_email_iff_token_matches "nobody@example.com"
                Demo.alice_token Demo.alice_verified) as (_ & Hno & _).
    apply Hno. intros (u & Hu & _). vm_compute in Hu. discriminate Hu.
Defined.

(** ** What a failing request has already written *)

(** C6: when the throttle gate is open for a request to the contact route,
    the entry of its origin becomes the clock reading taken for it, whatever
    the handler does afterwards; for an identity that was never registered
    the handler raises 401 and the entry is written all the same. *)
Theorem throttle_stamped_whatever_follows env request contact_data avatar w :
  throttle_open env (timedelta_minutes 1) w (client_host request) = true ->
  let outcome := create_contact_route env request (contact_data, avatar) w in
  request_counts (snd outcome) =
  <[client_host request := throttle_stamp env w (client_host request)]>
    (request_counts w) /\
  (users w !! email contact_data = None ->
   fst outcome =
   Raise (HTTPException 401 (Text "User not registered or not verified"))).
Proof.
  intros Hopen outcome. subst outcome. unfold create_contact_route.
  rewrite (rate_limit_open _ _ _ _ _ _ _ Hopen). split.
  - destruct (create_contact_frame env request (contact_data, avatar)
                (throttle_pass env w (client_host request))) as [_ ->].
    unfold throttle_pass. cbn.
    destruct (request_counts w !! client_host request); reflexivity.
  - intros Hunknown. rewrite create_contact_unverified; [reflexivity|].
    unfold is_verified, throttle_pass.
    destruct (request_counts w !! client_host request); cbn;
      rewrite Hunknown; reflexivity.
Qed.

Lemma throttle_stamped_whatever_follows_witness :
  request_counts (Demo.zed_refused Demo.env) !! "10.0.0.1" = Some 0 /\
  fst (create_contact_route Demo.env (Demo.from "10.0.0.1") Demo.zed
         initial_world) =
  Raise (HTTPException 401 (Text "User not registered or not verified")).
Proof.
  destruct (throttle_stamped_whatever_follows Demo.env (Demo.from "10.0.0.1")
              (Demo.contact_of "zed@example.com") Demo.avatar initial_world
              eq_refl) as [Hcounts Hfails].
  split.
  - unfold Demo.zed_refused, Demo.zed. rewrite Hcounts. reflexivity.
  - apply Hfails. reflexivity.
Defined.

(** C7: [create_contact] writes the cooldown entry only once the identity
    guard and the cooldown check have passed, and before it calls the media
    store: when a guard fails the entries are as before and nothing is
    uploaded; when both pass, the entry of the identity is the clock reading
    taken for it and the payload has been handed to the store, and if the
    store raises, the handler fails with that error and the entry stays. *)
Theorem cooldown_kept_when_upload_fails env request contact_data avatar w :
  let identity := email contact_data in
  let outcome := create_contact env request (contact_data, avatar) w in
  let guards := is_verified w identity
                && cooldown_open env (timedelta_minutes 1) w identity in
  (guards = false ->
   succeeds outcome = false /\
   last_contact_time (snd outcome) = last_contact_time w /\
   uploads (snd outcome) = uploads w) /\
  (guards = true ->
   last_contact_time (snd outcome) =
   <[identity := cooldown_stamp env w identity]> (last_contact_time w) /\
   uploads (snd outcome) = (uploads w ++ [file avatar])%list /\
   (upload env (length (uploads w)) (file avatar) = UploadRaises ->
    fst outcome = Raise UploadError)).
Proof.
  intros identity outcome guards. subst guards outcome.
  destruct (is_verified w identity) eqn:Hv; cbn [andb].
  2:{ split; [|discriminate]. intros _.
      rewrite (create_contact_unverified _ _ _ _ _ Hv). auto. }
  destruct (cooldown_open env (timedelta_minutes 1) w identity) eqn:Hc.
  2:{ split; [|discriminate]. intros _.
      rewrite (create_contact_cooling _ _ _ _ _ Hv Hc). auto. }
  split; [discriminate|]. intros _.
  rewrite (create_contact_uploading _ _ _ _ _ Hv Hc). cbn zeta.
  fold identity.
  assert (Hlen : uploads (cooldown_pass env w identity) = uploads w).
  { unfold cooldown_pass. destruct (last_contact_time w !! identity);
      reflexivity. }
  assert (Hlast : last_contact_time (cooldown_pass env w identity) =
                  <[identity := cooldown_stamp env w identity]>
                    (last_contact_time w)).
  { unfold cooldown_pass. destruct (last_contact_time w !! identity);
      reflexivity. }
  rewrite Hlen.
  destruct (upload env (length (uploads w)) (file avatar)) as [|d] eqn:Hup;
    [|destruct (d !! "secure_url")]; cbn [fst snd];
    unfold log_upload; cbn -[cooldown_pass]; rewrite ?Hlast, ?Hlen;
    repeat split; auto; discriminate.
Qed.

(** The media store is down when Alice creates her first contact. *)
Lemma cooldown_kept_when_upload_fails_witness :
  fst (create_contact Demo.env_down (Demo.from "10.0.0.1")
         (Demo.contact_of Demo.alice, Demo.avatar) Demo.alice_verified) =
  Raise UploadError /\
  last_contact_time
    (snd (create_contact Demo.env_down (Demo.from "10.0.0.1")
            (Demo.contact_of Demo.alice, Demo.avatar) Demo.alice_verified))
    !! Demo.alice = Some 0.
Proof.
  destruct (cooldown_kept_when_upload_fails Demo.env_down
              (Demo.from "10.0.0.1") (Demo.contact_of Demo.alice) Demo.avatar
              Demo.alice_verified) as [_ Hpass].
  destruct (Hpass eq_refl) as (Hlast & _ & Hraise).
  split.
  - apply Hraise. reflexivity.
  - rewrite Hlast. reflexivity.
Defined.

(** ** The [limit] argument of [rate_limit] *)

(** C10: [rate_limit] never reads [limit].  With any [limit], 5 included,
    the wrapped handler does on every call, and so on every sequence of
    calls, what it does with [limit] 1; and a request whose origin was stamped
    less than [per] ago is refused whatever [limit] is, so one request per
    origin and period is all that gets through. *)
Theorem limit_is_never_read {Args R} env limit per
    (func : Request -> Args -> M R) :
  (forall request args w,
     rate_limit env limit per func request args w =
     rate_limit env 1 per func request args w) /\
  (forall calls w,
     run_all (rate_limit env limit per func) calls w =
     run_all (rate_limit env 1 per func) calls w) /\
  (forall request args w t,
     request_counts w !! client_host request = Some t ->
     clock env (clock_reads w) - t < per ->
     succeeds (rate_limit env limit per func request args w) = false /\
     snd (rate_limit env limit per func request args w) = tick w).
Proof.
  split; [reflexivity|]. split; [reflexivity|].
  intros request args w t Hentry Hwithin.
  assert (Hclosed : throttle_open env per w (client_host request) = false).
  { unfold throttle_open. rewrite Hentry. apply negb_false_iff, Z.ltb_lt.
    exact Hwithin. }
  destruct (rate_limit_closed env limit per func request args w Hclosed)
    as (t' & _ & ->).
  split; reflexivity.
Qed.

(** The route is declared with [limit=5]; of five requests of one origin
    within two seconds only the first gets past the throttle. *)
Lemma limit_is_never_read_witness :
  map succeeds_past_throttle
    (fst (run_all (create_contact_route Demo.env)
            (repeat (Demo.from "10.0.0.1", Demo.zed) 5) initial_world)) =
  [true; false; false; false; false].
Proof.
  destruct (limit_is_never_read Demo.env 5 (timedelta_minutes 1)
              (create_contact Demo.env)) as (_ & Hseq & _).
  unfold create_contact_route. rewrite Hseq. reflexivity.
Defined.

(** ** Contact creations served one after the other *)



(** ** Registration *)


(** [register_user] either rejects the address and changes nothing, or
    accepts it; which of the two depends on the address alone. *)
Lemma register_user_decides env user_data w :
  register_user env user_data w =
  (Raise (HTTPException 400 (Text "Invalid email address")), w) /\
  ~ acceptable_email env (reg_email user_data)
  \/
  succeeds (register_user env user_data w) = true /\
  acceptable_email env (reg_email user_data).
Proof.
  unfold acceptable_email, succeeds. unfold_handler.
  destruct (parseaddr env (reg_email user_data)) as [name address]. cbn [snd].
  destruct (String.eqb_spec address "") as [->|Hne]; cbn [orb].
  - left. split; [reflexivity|]. intros [H _]. congruence.
  - destruct (contains_at (reg_email user_data)); cbn [negb].
    + right. auto.
    + left. split; [reflexivity|]. intros [_ H]. discriminate.
Qed.

Lemma register_user_accepted_anywhere env user_data w w' :
  succeeds (register_user env user_data w) = true ->
  succeeds (register_user env user_data w') = true.
Proof.
  intros Hok.
  destruct (register_user_decides env user_data w) as [[Hrun _] | [_ Hacc]].
  - rewrite Hrun in Hok. discriminate.
  - destruct (register_user_decides env user_data w') as [[_ Hno] | [H _]];
      [contradiction | exact H].
Qed.



(** X2: An accepted registration hands exactly one task to the mailer, for the
    address and with the token it has just stored, and [verify_email] with
    that token verifies the address. *)
Theorem mailed_token_verifies env user_data w :
  succeeds (register_user env user_data w) = true ->
  let address := reg_email user_data in
  let w1 := snd (register_user env user_data w) in
  exists token,
    background_tasks w1 = (background_tasks w ++ [(address, token)])%list /\
    is_verified w1 address = false /\
    fst (verify_email address token w1) =
    Return [("message", "Email verified successfully")] /\
    is_verified (snd (verify_email address token w1)) address = true.
Proof.
  intros Hok address w1. subst w1. unfold succeeds in Hok.
  destruct (register_user_cases env user_data w) as [Hrun | Hrun];
    rewrite Hrun in *; [discriminate|]. cbn [snd].
  exists (uuid4 env (tokens_drawn w)). split; [reflexivity|].
  set (w1 := add_task _ _).
  assert (Hrec : users w1 !! address =
                 Some (mk_user false (uuid4 env (tokens_drawn w))))
    by (subst w1; cbn; apply lookup_insert_eq).
  clearbody w1.
  split; [unfold is_verified; rewrite Hrec; reflexivity|].
  unfold_handler. cbn. rewrite Hrec. cbn. rewrite String.eqb_refl. cbn.
  unfold is_verified. cbn. rewrite lookup_insert_eq. auto.
Qed.

Lemma mailed_token_verifies_witness :
  exists token,
    background_tasks Demo.alice_registered = [(Demo.alice, token)] /\
    is_verified
      (snd (verify_email Demo.alice token Demo.alice_registered)) Demo.alice
    = true.
Proof.
  destruct (mailed_token_verifies Demo.env {| reg_email := Demo.alice |}
              initial_world eq_refl) as (token & Htasks & _ & _ & Hv).
  exists token. split; [exact Htasks | exact Hv].
Defined.

(** X3: Registering an address again replaces its token: when [uuid4] hands out
    a different token the second time, the first one no longer verifies the
    address (400, nothing changes) and the second one does. *)
Theorem reregistration_replaces_token env user_data w :
  succeeds (register_user env user_data w) = true ->
  uuid4 env (tokens_drawn w) <> uuid4 env (S (tokens_drawn w)) ->
  let address := reg_email user_data in
  let w2 := snd (register_user env user_data
                   (snd (register_user env user_data w))) in
  verify_email address (uuid4 env (tokens_drawn w)) w2 =
  (Raise (HTTPException 400 (Text "Invalid email or token")), w2) /\
  fst (verify_email address (uuid4 env (S (tokens_drawn w))) w2) =
  Return [("message", "Email verified successfully")].
Proof.
  intros Hok Hfresh address w2.
  assert (Hagain : forall w', succeeds (register_user env user_data w') = true)
    by (intros w'; exact (register_user_accepted_anywhere _ _ _ _ Hok)).
  assert (Hrec : users w2 !! address =
                 Some (mk_user false (uuid4 env (S (tokens_drawn w))))).
  { subst w2. rewrite (register_user_registers _ _ _ (Hagain _)).
    unfold succeeds in Hok.
    destruct (register_user_cases env user_data w) as [Hrun | Hrun];
      rewrite Hrun in *; [discriminate | reflexivity]. }
  split.
  - destruct (verify_email_cases address (uuid4 env (tokens_drawn w)) w2)
      as [(u & Hu & Htok & _) | (_ & Hrun)]; [|exact Hrun].
    rewrite Hrec in Hu. injection Hu as <-. cbn in Htok. congruence.
  - unfold_handler. cbn. rewrite Hrec. cbn. rewrite String.eqb_refl.
    reflexivity.
Qed.

Lemma reregistration_replaces_token_witness :
  verify_email Demo.alice Demo.alice_token Demo.alice_registered_twice =
  (Raise (HTTPException 400 (Text "Invalid email or token")),
   Demo.alice_registered_twice).
Proof.
  destruct (reregistration_replaces_token Demo.env
              {| reg_email := Demo.alice |} initial_world eq_refl)
    as [Hold _].
  - vm_compute. discriminate.
  - exact Hold.
Defined.

(** ** The worlds a contact request can leave *)

Lemma throttle_pass_fields env w origin :
  let w0 := throttle_pass env w origin in
  users w0 = users w /\ last_contact_time w0 = last_contact_time w /\
  uploads w0 = uploads w /\ tokens_drawn w0 = tokens_drawn w /\
  background_tasks w0 = background_tasks w /\
  request_counts w0 =
  <[origin := throttle_stamp env w origin]> (request_counts w) /\
  (clock_reads w < clock_reads w0)%nat /\
  past_reading env w0 (throttle_stamp env w origin).
Proof.
  unfold throttle_pass, throttle_stamp, past_reading.
  destruct (request_counts w !! origin); cbn; repeat split; try lia;
    eexists; (split; [|reflexivity]); lia.
Qed.

Lemma cooldown_pass_fields env w identity :
  let w0 := cooldown_pass env w identity in
  users w0 = users w /\ request_counts w0 = request_counts w /\
  uploads w0 = uploads w /\ tokens_drawn w0 = tokens_drawn w /\
  background_tasks w0 = background_tasks w /\
  last_contact_time w0 =
  <[identity := cooldown_stamp env w identity]> (last_contact_time w) /\
  (clock_reads w < clock_reads w0)%nat /\
  past_reading env w0 (cooldown_stamp env w identity).
Proof.
  unfold cooldown_pass, cooldown_stamp, past_reading.
  destruct (last_contact_time w !! identity); cbn; repeat split; try lia;
    eexists; (split; [|reflexivity]); lia.
Qed.

Lemma create_contact_route_end env request contact_data avatar w :
  route_end env request contact_data avatar w
    (snd (create_contact_route env request (contact_data, avatar) w)).
Proof.
  unfold create_contact_route.
  destruct (throttle_open env (timedelta_minutes 1) w (client_host request))
    eqn:Hopen.
  2:{ destruct (rate_limit_closed env 5 (timedelta_minutes 1)
                  (create_contact env) request (contact_data, avatar) w Hopen)
        as (t & _ & ->). apply end_throttled, Hopen. }
  rewrite (rate_limit_open _ _ _ _ _ _ _ Hopen).
  pose proof (throttle_pass_fields env w (client_host request)) as Hf.
  cbn zeta in Hf. destruct Hf as (Husers & _).
  set (w0 := throttle_pass env w (client_host request)) in *.
  assert (Hsame : is_verified w0 (email contact_data) =
                  is_verified w (email contact_data))
    by (unfold is_verified; rewrite Husers; reflexivity).
  destruct (is_verified w0 (email contact_data)) eqn:Hv.
  2:{ rewrite (create_contact_unverified _ _ _ _ _ Hv).
      apply end_unauthorized; auto. }
  destruct (cooldown_open env (timedelta_minutes 1) w0 (email contact_data))
    eqn:Hc.
  2:{ rewrite (create_contact_cooling _ _ _ _ _ Hv Hc).
      apply end_cooling; auto. }
  rewrite (create_contact_uploading _ _ _ _ _ Hv Hc). cbn zeta.
  replace (snd _) with
    (log_upload (file avatar) (cooldown_pass env w0 (email contact_data))).
  - apply end_uploaded; auto.
  - destruct (upload env _ _) as [|d]; [|destruct (d !! "secure_url")];
      reflexivity.
Qed.

Lemma routes_end_keeps_tokens env request contact_data avatar w :
  let w' := snd (create_contact_route env request (contact_data, avatar) w) in
  tokens_drawn w' = tokens_drawn w /\
  background_tasks w' = background_tasks w.
Proof.
  pose proof (throttle_pass_fields env w (client_host request)) as Ht.
  cbn zeta in Ht. destruct Ht as (_ & _ & _ & Htok & Htasks & _).
  pose proof (cooldown_pass_fields env
                (throttle_pass env w (client_host request))
                (email contact_data)) as Hc.
  cbn zeta in Hc. destruct Hc as (_ & _ & _ & Htok' & Htasks' & _).
  cbn zeta.
  destruct (create_contact_route_end env request contact_data avatar w);
    cbn [tick log_upload tokens_drawn background_tasks];
    rewrite ?Htok', ?Htasks', ?Htok, ?Htasks; auto.
Qed.

(** ** What each route leaves alone *)

(** X4: Registration and verification never read the clock and never touch the
    throttle entries, the cooldown entries or the media store; a contact
    request never touches the user records, draws no token and schedules no
    e-mail. *)
Theorem routes_keep_to_their_stores env op w :
  let w' := after env op w in
  match op with
  | Register _ | Verify _ _ =>
      request_counts w' = request_counts w /\
      last_contact_time w' = last_contact_time w /\
      clock_reads w' = clock_reads w /\ uploads w' = uploads w
  | CreateContact _ _ _ =>
      users w' = users w /\ tokens_drawn w' = tokens_drawn w /\
      background_tasks w' = background_tasks w
  end.
Proof.
  unfold after. destruct op as [user_data|address token|request cd av];
    cbn [perform].
  - destruct (register_user_cases env user_data w) as [-> | ->]; cbn; auto.
  - destruct (verify_email_cases address token w)
      as [(u & _ & _ & ->) | (_ & ->)]; cbn; auto.
  - pose proof (throttle_pass_fields env w (client_host request)) as Ht.
    cbn zeta in Ht. destruct Ht as (Hu & _ & _ & Htok & Htasks & _).
    pose proof (cooldown_pass_fields env
                  (throttle_pass env w (client_host request)) (email cd))
      as Hc.
    cbn zeta in Hc. destruct Hc as (Hu' & _ & _ & Htok' & Htasks' & _).
    destruct (create_contact_route_end env request cd av w);
      cbn [tick log_upload users tokens_drawn background_tasks];
      rewrite ?Hu', ?Htok', ?Htasks', ?Hu, ?Htok, ?Htasks; auto.
Qed.

(** X5: A contact request changes the throttle entry of its own origin and the
    cooldown entry of its own identity at most: the entries of every other
    origin and of every other identity are as before. *)
Theorem other_keys_untouched env request contact_data avatar w :
  let w' := snd (create_contact_route env request (contact_data, avatar) w) in
  (forall origin, origin <> client_host request ->
     request_counts w' !! origin = request_counts w !! origin) /\
  (forall identity, identity <> email contact_data ->
     last_contact_time w' !! identity = last_contact_time w !! identity).
Proof.
  pose proof (throttle_pass_fields env w (client_host request)) as Ht.
  cbn zeta in Ht. destruct Ht as (_ & Hl & _ & _ & _ & Hr & _).
  pose proof (cooldown_pass_fields env
                (throttle_pass env w (client_host request))
                (email contact_data)) as Hc.
  cbn zeta in Hc. destruct Hc as (_ & Hr' & _ & _ & _ & Hl' & _).
  cbn zeta.
  destruct (create_contact_route_end env request contact_data avatar w);
    cbn [tick log_upload request_counts last_contact_time];
    rewrite ?Hr', ?Hl', ?Hr, ?Hl; split; intros key Hne;
    rewrite ?lookup_insert_ne by congruence; reflexivity.
Qed.

(** A request from 10.0.0.2 for an unknown address, after Alice's first
    contact from 10.0.0.1. *)
Lemma other_keys_untouched_witness :
  request_counts
    (snd (create_contact_route Demo.env (Demo.from "10.0.0.2") Demo.zed
            (Demo.alice_created Demo.env))) !! "10.0.0.1" = Some 0 /\
  last_contact_time
    (snd (create_contact_route Demo.env (Demo.from "10.0.0.2") Demo.zed
            (Demo.alice_created Demo.env))) !! Demo.alice = Some 500000.
Proof.
  destruct (other_keys_untouched Demo.env (Demo.from "10.0.0.2")
              (Demo.contact_of "zed@example.com") Demo.avatar
              (Demo.alice_created Demo.env)) as [Horigins Hidentities].
  split.
  - unfold Demo.zed. rewrite Horigins; [reflexivity | discriminate].
  - unfold Demo.zed. rewrite Hidentities; [reflexivity | discriminate].
Defined.

(** ** The cooldown check only looks *)

(** X6: [can_create_contact] never raises and records nothing: it answers [True]
    exactly when the identity has no entry or its entry is at least [per]
    older than the clock reading it takes, and apart from that reading
    (taken only when there is an entry) the world is as before.  In
    particular an identity without entry is let through whatever [per]
    is. *)
Theorem can_create_contact_only_looks env user_id per w :
  exists answer,
    fst (can_create_contact env user_id per w) = Return answer /\
    (answer = true <->
     last_contact_time w !! user_id = None \/
     exists last_contact,
       last_contact_time w !! user_id = Some last_contact /\
       per <= clock env (clock_reads w) - last_contact) /\
    (snd (can_create_contact env user_id per w) = w \/
     snd (can_create_contact env user_id per w) = tick w) /\
    (last_contact_time w !! user_id = None ->
     can_create_contact env user_id per w = (Return true, w)).
Proof.
  unfold_handler. cbn.
  destruct (last_contact_time w !! user_id) as [t|] eqn:E; cbn.
  - destruct (Z.ltb_spec (clock env (clock_reads w) - t) per) as [Hlt|Hge];
      cbn; eexists; (split; [reflexivity|]); (split; [|split; [auto|]]);
      try discriminate.
    + split; [discriminate|]. intros [H | (t' & Ht' & H)]; [discriminate|].
      injection Ht' as <-. lia.
    + split; eauto.
  - exists true. repeat split; auto.
Qed.

Lemma can_create_contact_only_looks_witness :
  can_create_contact Demo.env "zed@example.com" (timedelta_minutes 1)
    (Demo.alice_created Demo.env) =
  (Return true, Demo.alice_created Demo.env).
Proof.
  destruct (can_create_contact_only_looks Demo.env "zed@example.com"
              (timedelta_minutes 1) (Demo.alice_created Demo.env))
    as (answer & _ & _ & _ & Hfresh).
  apply Hfresh. reflexivity.
Defined.

(** ** What the media store can do to a contact request *)

(** X7: A store that answers without a [secure_url]: the handler raises
    [KeyError], after the cooldown entry has been written and the payload
    handed over, so the identity is held off for the next minute although no
    contact was created. *)
Theorem upload_result_without_url env request contact_data avatar w d :
  is_verified w (email contact_data) = true ->
  cooldown_open env (timedelta_minutes 1) w (email contact_data) = true ->
  upload env (length (uploads w)) (file avatar) = UploadResult d ->
  d !! "secure_url" = None ->
  let outcome := create_contact env request (contact_data, avatar) w in
  fst outcome = Raise (KeyError "secure_url") /\
  last_contact_time (snd outcome) !! email contact_data =
  Some (cooldown_stamp env w (email contact_data)) /\
  uploads (snd outcome) = (uploads w ++ [file avatar])%list.
Proof.
  intros Hv Hc Hup Hmissing outcome. subst outcome.
  rewrite (create_contact_uploading _ _ _ _ _ Hv Hc). cbn zeta.
  pose proof (cooldown_pass_fields env w (email contact_data)) as Hf.
  cbn zeta in Hf. destruct Hf as (_ & _ & Huploads & _ & _ & Hlast & _).
  rewrite Huploads, Hup, Hmissing. cbn [fst snd log_upload uploads
    last_contact_time]. rewrite Hlast, Huploads, lookup_insert_eq. auto.
Qed.

Lemma upload_result_without_url_witness :
  fst (create_contact Demo.env_odd (Demo.from "10.0.0.1")
         (Demo.contact_of Demo.alice, Demo.avatar) Demo.alice_verified) =
  Raise (KeyError "secure_url") /\
  last_contact_time
    (snd (create_contact Demo.env_odd (Demo.from "10.0.0.1")
            (Demo.contact_of Demo.alice, Demo.avatar) Demo.alice_verified))
    !! Demo.alice = Some 0.
Proof.
  destruct (upload_result_without_url Demo.env_odd (Demo.from "10.0.0.1")
              (Demo.contact_of Demo.alice) Demo.avatar Demo.alice_verified
              {[ "error" := "unsupported image" ]}
              eq_refl eq_refl eq_refl eq_refl) as (Hraise & Hlast & _).
  split; [exact Hraise | exact Hlast].
Defined.

(** ** From registration to the first contact *)

(** X8: On a fresh server: an address that [register_user] accepts is
    registered, verified with the first token [uuid4] hands out, and then
    creates a contact; if the media store answers with a [secure_url], the
    reply carries exactly that URL. *)
Theorem register_verify_create env address request avatar d url :
  acceptable_email env address ->
  upload env 0 (file avatar) = UploadResult d ->
  d !! "secure_url" = Some url ->
  let w2 := serve env [Register {| reg_email := address |};
                       Verify address (uuid4 env 0)] initial_world in
  is_verified w2 address = true /\
  fst (perform env (CreateContact request {| email := address |} avatar) w2) =
  Return [("message", "Contact created successfully"); ("avatar_url", url)].
Proof.
  intros Hacc Hup Hurl w2.
  assert (Hw2 : w2 = add_task (address, uuid4 env 0)
                       (set_users (insert address (mk_user true (uuid4 env 0)))
                          (draw_token initial_world))).
  { subst w2. cbn [serve]. unfold after at 2. cbn [perform].
    destruct (register_user_decides env {| reg_email := address |}
                initial_world) as [[_ Hno] | [Hok _]]; [contradiction|].
    unfold succeeds in Hok.
    destruct (register_user_cases env {| reg_email := address |}
                initial_world) as [Hrun | Hrun]; rewrite Hrun in *;
      [discriminate|]. cbn [snd reg_email tokens_drawn initial_world].
    unfold after, perform. unfold_handler. cbn.
    rewrite lookup_insert_eq. cbn. rewrite String.eqb_refl. cbn.
    unfold add_task, set_users, draw_token. cbn.
    rewrite insert_insert_eq. reflexivity. }
  clearbody w2. subst w2.
  set (w2 := add_task _ _).
  assert (Hv : forall w, users w = users w2 -> is_verified w address = true).
  { intros w Hw. unfold is_verified. rewrite Hw. subst w2. cbn.
    rewrite lookup_insert_eq. reflexivity. }
  split; [apply Hv; reflexivity|].
  cbn [perform]. unfold create_contact_route.
  rewrite rate_limit_open by reflexivity.
  pose proof (throttle_pass_fields env w2 (client_host request)) as Ht.
  pose proof (cooldown_pass_fields env
                (throttle_pass env w2 (client_host request)) address) as Hc.
  cbn zeta in Ht, Hc.
  destruct Ht as (Hu & Hl & Hup0 & _), Hc as (_ & _ & Hup1 & _).
  rewrite create_contact_uploading.
  - cbn zeta. cbn [email]. rewrite Hup1, Hup0.
    change (uploads w2) with (@nil string). cbn [length].
    rewrite Hup, Hurl. reflexivity.
  - apply Hv, Hu.
  - unfold cooldown_open. cbn [email]. rewrite Hl. reflexivity.
Qed.

Lemma register_verify_create_witness :
  fst (perform Demo.env
         (CreateContact (Demo.from "10.0.0.1") (Demo.contact_of Demo.alice)
            Demo.avatar) Demo.alice_verified) =
  Return [("message", "Contact created successfully");
          ("avatar_url",
           "https://res.cloudinary.com/demo/image/upload/avatar.png")].
Proof.
  destruct (register_verify_create Demo.env Demo.alice (Demo.from "10.0.0.1")
              Demo.avatar
              {[ "secure_url" :=
                   "https://res.cloudinary.com/demo/image/upload/avatar.png" ]}
              "https://res.cloudinary.com/demo/image/upload/avatar.png")
    as [_ Hreply].
  - split; [vm_compute; discriminate | reflexivity].
  - reflexivity.
  - reflexivity.
  - exact Hreply.
Defined.

(** ** What holds in every reachable world *)

Lemma reachable_serve env ops :
  forall w, reachable env w -> reachable env (serve env ops w).
Proof.
  induction ops as [|op ops IH]; intros w Hw; cbn [serve]; [exact Hw|].
  apply IH, reachable_after, Hw.
Qed.

Lemma keeps_keys_insert {V} (m : gmap string V) key v :
  keeps_keys m (<[key := v]> m).
Proof.
  intros k Hk. apply lookup_insert_is_Some.
  destruct (decide (key = k)); auto.
Qed.

Lemma keeps_keys_refl {V} (m : gmap string V) : keeps_keys m m.
Proof. intros k Hk. exact Hk. Qed.

Lemma nothing_forgotten_after env op w : nothing_forgotten w (after env op w).
Proof.
  unfold nothing_forgotten, after.
  destruct op as [user_data|address token|request cd av]; cbn [perform].
  - destruct (register_user_cases env user_data w) as [-> | ->]; cbn;
      auto using keeps_keys_refl, keeps_keys_insert.
  - destruct (verify_email_cases address token w)
      as [(u & _ & _ & ->) | (_ & ->)]; cbn;
      auto using keeps_keys_refl, keeps_keys_insert.
  - pose proof (throttle_pass_fields env w (client_host request)) as Ht.
    cbn zeta in Ht. destruct Ht as (Hu & Hl & _ & _ & _ & Hr & _).
    pose proof (cooldown_pass_fields env
                  (throttle_pass env w (client_host request)) (email cd))
      as Hc.
    cbn zeta in Hc. destruct Hc as (Hu' & Hr' & _ & _ & _ & Hl' & _).
    destruct (create_contact_route_end env request cd av w);
      cbn [tick log_upload users request_counts last_contact_time];
      rewrite ?Hu', ?Hr', ?Hl', ?Hu, ?Hr, ?Hl;
      auto using keeps_keys_refl, keeps_keys_insert.
Qed.

(** X9: No sequence of requests makes the server forget an identity, an
    origin's throttle entry or an identity's cooldown entry: every key of
    the three dictionaries is still there afterwards. *)
Theorem nothing_is_ever_forgotten env ops w :
  nothing_forgotten w (serve env ops w).
Proof.
  revert w. induction ops as [|op ops IH]; intros w; cbn [serve].
  - repeat split; apply keeps_keys_refl.
  - destruct (nothing_forgotten_after env op w) as (H1 & H2 & H3).
    destruct (IH (after env op w)) as (H1' & H2' & H3').
    repeat split; intros k Hk; auto.
Qed.

(** X10: Only identities that have a user record ever get a cooldown entry. *)
Theorem cooldown_only_for_registered env w :
  reachable env w ->
  keeps_keys (last_contact_time w) (users w).
Proof.
  induction 1 as [|op w Hreach IH].
  - intros k [t Ht]. cbn in Ht. rewrite lookup_empty in Ht. discriminate.
  - unfold after.
    destruct op as [user_data|address token|request cd av]; cbn [perform].
    + destruct (register_user_cases env user_data w) as [-> | ->]; cbn;
        [exact IH|].
      intros k Hk. apply keeps_keys_insert, IH, Hk.
    + destruct (verify_email_cases address token w)
        as [(u & _ & _ & ->) | (_ & ->)]; cbn; [|exact IH].
      intros k Hk. apply keeps_keys_insert, IH, Hk.
    + pose proof (throttle_pass_fields env w (client_host request)) as Ht.
      cbn zeta in Ht. destruct Ht as (Hu & Hl & _).
      pose proof (cooldown_pass_fields env
                    (throttle_pass env w (client_host request)) (email cd))
        as Hc.
      cbn zeta in Hc. destruct Hc as (Hu' & _ & _ & _ & _ & Hl' & _).
      destruct (create_contact_route_end env request cd av w)
        as [| | |_ Hv _];
        cbn [tick log_upload last_contact_time users];
        rewrite ?Hl', ?Hu', ?Hl, ?Hu; auto.
      intros k Hk. apply lookup_insert_is_Some in Hk as [<- | [_ Hk]]; auto.
      apply is_verified_true in Hv as [token ->]. eauto.
Qed.

Lemma cooldown_only_for_registered_witness :
  keeps_keys (last_contact_time (Demo.alice_created Demo.env))
    (users (Demo.alice_created Demo.env)).
Proof.
  apply (cooldown_only_for_registered Demo.env).
  unfold Demo.alice_created, Demo.alice_verified.
  apply reachable_after, reachable_serve, reachable_initial.
Defined.

(** X11: Every address in [users] passed the registration test: [parseaddr]
    finds an address in it and it contains an '@'.  So an address that is
    registered can always be registered again. *)
Theorem registered_addresses_are_acceptable env w address :
  reachable env w ->
  is_Some (users w !! address) ->
  acceptable_email env address /\
  forall w', succeeds (register_user env {| reg_email := address |} w') = true.
Proof.
  intros Hreach Hin.
  assert (Hacc : acceptable_email env address).
  { revert Hin. induction Hreach as [|op w Hreach IH].
    - intros [u Hu]. cbn in Hu. rewrite lookup_empty in Hu. discriminate.
    - unfold after.
      destruct op as [user_data|address' token|request cd av]; cbn [perform].
      + destruct (register_user_decides env user_data w)
          as [[-> _] | [Hok Hacc]]; [exact IH|].
        unfold succeeds in Hok.
        destruct (register_user_cases env user_data w) as [Hrun | Hrun];
          rewrite Hrun in *; [discriminate|]. cbn.
        intros Hin. apply lookup_insert_is_Some in Hin as [<- | [_ Hin]]; auto.
      + destruct (verify_email_cases address' token w)
          as [(u & Hu & _ & ->) | (_ & ->)]; cbn; [|exact IH].
        intros Hin. apply lookup_insert_is_Some in Hin as [<- | [_ Hin]]; eauto.
      + rewrite create_contact_route_users. exact IH. }
  split; [exact Hacc|]. intros w'.
  destruct (register_user_decides env {| reg_email := address |} w')
    as [[_ Hno] | [Hok _]]; [contradiction | exact Hok].
Qed.

Lemma registered_addresses_are_acceptable_witness :
  succeeds (register_user Demo.env {| reg_email := Demo.alice |}
              (Demo.alice_created Demo.env)) = true.
Proof.
  apply (registered_addresses_are_acceptable Demo.env Demo.alice_verified
           Demo.alice).
  - unfold Demo.alice_verified. apply reachable_serve, reachable_initial.
  - vm_compute. eauto.
Defined.

(** X12: One e-mail task per token drawn, and the token of every user record is
    one that [uuid4] handed out and that was put into a task for that very
    address: no record ever holds a token that was not mailed to its
    owner. *)
Theorem stored_tokens_were_mailed env w :
  reachable env w -> tokens_were_mailed env w.
Proof.
  induction 1 as [|op w Hreach [Hlen IH]].
  - split; [reflexivity|]. intros address u Hu. cbn in Hu.
    rewrite lookup_empty in Hu. discriminate.
  - unfold tokens_were_mailed, after.
    destruct op as [user_data|address' token|request cd av]; cbn [perform].
    + destruct (register_user_cases env user_data w) as [-> | ->];
        cbn [snd]; [auto|].
      cbn. split; [rewrite length_app; cbn; lia|].
      intros address u Hu.
      apply lookup_insert_Some in Hu as [[<- <-] | [_ Hu]]; cbn.
      * exists (length (background_tasks w)).
        rewrite list_lookup_middle by reflexivity. rewrite Hlen. auto.
      * destruct (IH address u Hu) as (i & Hi & Htok). exists i.
        split; [|exact Htok]. rewrite lookup_app_l; [exact Hi|].
        apply lookup_lt_Some in Hi. exact Hi.
    + destruct (verify_email_cases address' token w)
        as [(u' & Hu' & Htok' & ->) | (_ & ->)]; cbn [snd]; [|auto].
      cbn. split; [exact Hlen|]. intros address u Hu.
      apply lookup_insert_Some in Hu as [[<- <-] | [_ Hu]]; cbn; [|auto].
      subst token. apply (IH address' u' Hu').
    + rewrite create_contact_route_users.
      destruct (routes_end_keeps_tokens env request cd av w) as [-> ->].
      auto.
Qed.

Lemma stored_tokens_were_mailed_witness :
  tokens_were_mailed Demo.env Demo.alice_registered_twice.
Proof.
  apply stored_tokens_were_mailed.
  unfold Demo.alice_registered_twice, Demo.alice_registered.
  do 2 apply reachable_after. apply reachable_initial.
Defined.

(** ** Stamps and waiting times *)

Lemma past_reading_later env w w' t :
  (clock_reads w <= clock_reads w')%nat ->
  past_reading env w t -> past_reading env w' t.
Proof. intros Hle (i & Hi & ->). exists i. split; [lia | reflexivity]. Qed.

Lemma stamps_past_readings_lemma env w :
  reachable env w -> stamps_are_past_readings env w.
Proof.
  induction 1 as [|op w Hreach [IHr IHl]].
  - split; intros k t Ht; cbn in Ht; rewrite lookup_empty in Ht;
      discriminate.
  - unfold stamps_are_past_readings, after.
    destruct op as [user_data|address token|request cd av]; cbn [perform].
    + destruct (register_user_cases env user_data w) as [-> | ->]; cbn;
        split; assumption.
    + destruct (verify_email_cases address token w)
        as [(u & _ & _ & ->) | (_ & ->)]; cbn; split; assumption.
    + pose proof (throttle_pass_fields env w (client_host request)) as Ht.
      cbn zeta in Ht. destruct Ht as (_ & Hl & _ & _ & _ & Hr & Hlt & Hpast).
      pose proof (cooldown_pass_fields env
                    (throttle_pass env w (client_host request)) (email cd))
        as Hc.
      cbn zeta in Hc.
      destruct Hc as (_ & Hr' & _ & _ & _ & Hl' & Hlt' & Hpast').
      set (w0 := throttle_pass env w (client_host request)) in *.
      set (w1 := cooldown_pass env w0 (email cd)) in *.
      assert (H0 : stamps_are_past_readings env w0).
      { split; intros k t Hk.
        - rewrite Hr in Hk.
          apply lookup_insert_Some in Hk as [[_ <-] | [_ Hk]];
            [exact Hpast|].
          apply (past_reading_later env w); [lia | eauto].
        - rewrite Hl in Hk. apply (past_reading_later env w); [lia | eauto]. }
      destruct H0 as [H0r H0l].
      destruct (create_contact_route_end env request cd av w);
        fold w0; fold w1; clearbody w1; clearbody w0;
        cbn [tick log_upload request_counts last_contact_time clock_reads].
      * split; intros k t Hk; apply (past_reading_later env w); eauto;
          cbn; lia.
      * split; eauto.
      * split; intros k t Hk; apply (past_reading_later env w0); eauto;
          cbn; lia.
      * split; intros k t Hk.
        -- rewrite Hr' in Hk.
           apply (past_reading_later env w0); [cbn; lia | eauto].
        -- rewrite Hl' in Hk.
           apply lookup_insert_Some in Hk as [[_ <-] | [_ Hk]].
           ++ apply (past_reading_later env w1); [cbn; lia | exact Hpast'].
           ++ apply (past_reading_later env w0); [cbn; lia | eauto].
Qed.

(** X13: Every time stored in [request_counts] or [last_contact_time] is a value
    that [datetime.now()] returned earlier: the program stores no other
    times. *)
Theorem stored_times_are_past_readings env w :
  reachable env w ->
  (forall origin t,
     request_counts w !! origin = Some t ->
     exists i, (i < clock_reads w)%nat /\ t = clock env i) /\
  (forall identity t,
     last_contact_time w !! identity = Some t ->
     exists i, (i < clock_reads w)%nat /\ t = clock env i).
Proof.
  intros Hreach.
  destruct (stamps_past_readings_lemma env w Hreach) as [Hr Hl].
  split; intros key t Hkey; [apply (Hr key) | apply (Hl key)]; exact Hkey.
Qed.

Lemma stored_times_are_past_readings_witness :
  stamps_are_past_readings Demo.env (Demo.alice_created Demo.env).
Proof.
  apply (stored_times_are_past_readings Demo.env).
  unfold Demo.alice_created, Demo.alice_verified.
  apply reachable_after, reachable_serve, reachable_initial.
Defined.

(** X14: When the throttle turns a request away in a reachable world, it names a
    waiting time that is more than zero; with a clock that never runs
    backwards it is at most the period of one minute. *)
Theorem waiting_time_is_within_the_period env request args w :
  reachable env w ->
  throttle_open env (timedelta_minutes 1) w (client_host request) = false ->
  exists time_to_wait : timedelta,
    fst (create_contact_route env request args w) =
    Raise (HTTPException 429 (TryAgainIn (total_seconds time_to_wait))) /\
    0 < time_to_wait /\
    (monotone_clock env -> time_to_wait <= timedelta_minutes 1).
Proof.
  intros Hreach Hclosed.
  destruct (rate_limit_closed env 5 (timedelta_minutes 1) (create_contact env)
              request args w Hclosed) as (t & Hentry & Hrun).
  unfold create_contact_route. rewrite Hrun. cbn [fst].
  eexists. split; [reflexivity|].
  unfold throttle_open in Hclosed. rewrite Hentry in Hclosed.
  apply negb_false_iff, Z.ltb_lt in Hclosed. split; [lia|].
  intros Hmono.
  destruct (stamps_past_readings_lemma env w Hreach) as [Hpast _].
  destruct (Hpast _ _ Hentry) as (i & Hi & ->).
  pose proof (Hmono i (clock_reads w) ltac:(lia)). lia.
Qed.

Lemma waiting_time_is_within_the_period_witness :
  exists time_to_wait : timedelta,
    fst (create_contact_route Demo.env (Demo.from "10.0.0.1") Demo.zed
           (Demo.alice_created Demo.env)) =
    Raise (HTTPException 429 (TryAgainIn (total_seconds time_to_wait))) /\
    0 < time_to_wait.
Proof.
  destruct (waiting_time_is_within_the_period Demo.env (Demo.from "10.0.0.1")
              Demo.zed (Demo.alice_created Demo.env))
    as (time_to_wait & Hrun & Hpos & _).
  - unfold Demo.alice_created, Demo.alice_verified.
    apply reachable_after, reachable_serve, reachable_initial.
  - reflexivity.
  - exists time_to_wait. split; [exact Hrun | exact Hpos].
Defined.


(** ** A burst of requests from one origin *)


